(** * phaser-raycaster: the [Raycaster.Map] and [Raycaster.Ray] cores

    A shallow embedding of the [Map] core (the [Map] constructor and the
    [dynamic] accessor pair) and of [ray/ray-core.js] (the [Ray]
    constructor), together with the properties the specification states
    about them.

    JavaScript objects that are shared and mutated in place (the parent
    raycaster, reached through [this._raycaster]) live in a store indexed
    by reference; a method takes the receiver and the store and returns a
    completion: either the updated receiver and store, or a thrown error. *)

From Stdlib Require Import ZArith Reals Lra.
From stdpp Require Import base option list gmap strings.

(** ** JavaScript values used by the two files *)

(** The only error the modelled code can raise by itself: reading a
    property of something that is not the expected object. *)
Inductive JsError := TypeError.

(** Result of running a method body. *)
Inductive completion (A : Type) : Type :=
| Normal (a : A)
| Throw (e : JsError).
Arguments Normal {A} a.
Arguments Throw {A} e.

#[global] Instance completion_bind : MBind completion :=
  fun A B k c =>
    match c with
    | Normal a => k a
    | Throw e => Throw e
    end.

#[global] Instance completion_ret : MRet completion := fun A a => Normal a.

(** A game object as the raycaster sees it: a reference compared with
    [===] (what [Array.prototype.indexOf] uses), or [undefined], which is
    what [this.object] holds until [config] assigns it. *)
Inductive jsobj := Undefined | Ref (l : positive).

#[global] Instance jsobj_eq_dec : EqDecision jsobj.
Proof. solve_decision. Defined.

(** JavaScript truthiness of a field that is either unset or a boolean. *)
Definition truthy (v : option bool) : bool :=
  match v with
  | Some b => b
  | None => false
  end.

(** [Phaser.Geom.Point]: a pair of numbers. *)
Record Point := mkPoint { px : R; py : R }.

(** [Phaser.Geom.Line]: two end points. *)
Record Line := mkLine { pointA : Point; pointB : Point }.

(** ** Arrays of object references *)

(** [array.indexOf(x)]: index of the first element strictly equal to
    [x], or [-1]. *)
Definition indexOf (x : jsobj) (l : list jsobj) : Z :=
  match list_find (fun y => y = x) l with
  | Some (i, _) => Z.of_nat i
  | None => (-1)%Z
  end.

(** [array.splice(start, 1)], the array after the call.  A negative
    [start] counts from the end, a [start] past the end removes nothing. *)
Definition splice1 (start : Z) (l : list jsobj) : list jsobj :=
  let len := Z.of_nat (length l) in
  let from := if (start <? 0)%Z then Z.max (len + start) 0 else Z.min start len in
  delete (Z.to_nat from) l.

(** [array.push(x)], the array after the call. *)
Definition push (x : jsobj) (l : list jsobj) : list jsobj := l ++ [x].

(** Lines 169-171, the array after them:
<<
  let index = array.indexOf(x);
  if(index >= 0)
      array.splice(index, 1);
>> *)
Definition remove_object (x : jsobj) (l : list jsobj) : list jsobj :=
  let index := indexOf x l in
  if (index >=? 0)%Z then splice1 index l else l.

(** Number of elements of [l] strictly equal to [x]. *)
Definition occurrences (x : jsobj) (l : list jsobj) : nat :=
  length (filter (fun y => y = x) l).

(** ** The parent raycaster, as far as [Map] touches it *)

(** [raycaster._stats.mappedObjects]. *)
Record MappedObjectsStats := mkMappedObjectsStats {
  total : Z;
  static : Z;
  dynamic : Z
}.

Record RaycasterStats := mkRaycasterStats {
  mappedObjects : MappedObjectsStats
}.

Record Raycaster := mkRaycaster {
  dynamicMappedObjects : list jsobj;
  _stats : RaycasterStats
}.

(** The store of raycaster objects; a [Map] holds a key of it in
    [_raycaster], so several maps can share one raycaster. *)
Abbreviation store := (gmap positive Raycaster).

(** [raycaster.dynamicMappedObjects = l] (in-place array update). *)
Definition set_dynamicMappedObjects (l : list jsobj) (rc : Raycaster) : Raycaster :=
  {| dynamicMappedObjects := l; _stats := _stats rc |}.

(** [raycaster._stats.mappedObjects.dynamic = n]. *)
Definition set_stats_dynamic (n : Z) (rc : Raycaster) : Raycaster :=
  {| dynamicMappedObjects := dynamicMappedObjects rc;
     _stats := {| mappedObjects :=
       {| total := total (mappedObjects (_stats rc));
          static := static (mappedObjects (_stats rc));
          dynamic := n |} |} |}.

(** [raycaster._stats.mappedObjects.static = n]. *)
Definition set_stats_static (n : Z) (rc : Raycaster) : Raycaster :=
  {| dynamicMappedObjects := dynamicMappedObjects rc;
     _stats := {| mappedObjects :=
       {| total := total (mappedObjects (_stats rc));
          static := n;
          dynamic := dynamic (mappedObjects (_stats rc)) |} |} |}.

(** The two assignments that close both branches of the setter:
<<
  _stats.mappedObjects.dynamic = dynamicMappedObjects.length;
  _stats.mappedObjects.static = _stats.mappedObjects.total - _stats.mappedObjects.dynamic;
>> *)
Definition recount (rc : Raycaster) : Raycaster :=
  let rc := set_stats_dynamic (Z.of_nat (length (dynamicMappedObjects rc))) rc in
  set_stats_static
    (total (mappedObjects (_stats rc)) - dynamic (mappedObjects (_stats rc)))%Z rc.

(** Reading through a raycaster reference; a reference that does not
    lead to a raycaster object makes the property access throw.  A
    thrown completion carries no state: what the receiver looks like
    after an uncaught error is not modelled. *)
Definition deref (r : positive) (s : store) : completion Raycaster :=
  match s !! r with
  | Some rc => Normal rc
  | None => Throw TypeError
  end.

(** ** [Raycaster.Map] *)

Module Map.

(** The fields the constructor initialises or declares.  [type],
    [active], [object] and [notSupported] are left [undefined] by the
    constructor body and filled by [config]. *)
Record state := mk {
  _raycaster : option positive;
  type : option string;
  active : option bool;
  _dynamic : bool;
  circle : bool;
  object : jsobj;
  _points : list Point;
  _segments : list Line;
  notSupported : option bool
}.

Definition set__dynamic (b : bool) (this : state) : state :=
  {| _raycaster := _raycaster this; type := type this; active := active this;
     _dynamic := b; circle := circle this; object := object this;
     _points := _points this; _segments := _segments this;
     notSupported := notSupported this |}.

(** [get dynamic()]. *)
Definition get_dynamic (this : state) : bool := _dynamic this.

(** [set dynamic(dynamic)], lines 149-179.  The property is documented
    as a boolean, so [==] is equality of booleans. *)
Definition set_dynamic (dynamic : bool) (this : state) (s : store)
  : completion (state * store) :=
  if bool_decide (_dynamic this = dynamic) then Normal (this, s)
  else if dynamic then
    let this := set__dynamic true this in
    match _raycaster this with
    | Some r =>
        rc ← deref r s;
        let rc := set_dynamicMappedObjects
                    (push (object this) (dynamicMappedObjects rc)) rc in
        Normal (this, <[r := recount rc]> s)
    | None => Normal (this, s)
    end
  else
    let this := set__dynamic false this in
    match _raycaster this with
    | Some r =>
        rc ← deref r s;
        let rc := set_dynamicMappedObjects
                    (remove_object (object this) (dynamicMappedObjects rc)) rc in
        Normal (this, <[r := recount rc]> s)
    | None => Normal (this, s)
    end.

(** The raycaster after an assignment that changes the flag of a map
    whose mapped object is [o]: the array update of the branch taken,
    then the two counter assignments. *)
Definition retrack (dynamic : bool) (o : jsobj) (rc : Raycaster) : Raycaster :=
  recount (set_dynamicMappedObjects
             (if dynamic then push o (dynamicMappedObjects rc)
              else remove_object o (dynamicMappedObjects rc)) rc).

(** The mapped object occurs in the raycaster's dynamic list once when
    the flag is set, and not at all when it is not. *)
Definition tracked_once (this : state) (rc : Raycaster) : Prop :=
  occurrences (object this) (dynamicMappedObjects rc) =
  if _dynamic this then 1%nat else 0%nat.

(** The counters agree with the dynamic list and with each other. *)
Definition counters_consistent (rc : Raycaster) : Prop :=
  dynamic (mappedObjects (_stats rc)) = Z.of_nat (length (dynamicMappedObjects rc)) /\
  static (mappedObjects (_stats rc)) =
    (total (mappedObjects (_stats rc)) - dynamic (mappedObjects (_stats rc)))%Z.

(** A sequence of assignments [this.dynamic = b1; this.dynamic = b2; ...]. *)
Fixpoint assign_all (bs : list bool) (this : state) (s : store)
  : completion (state * store) :=
  match bs with
  | [] => Normal (this, s)
  | b :: bs' => '(this', s') ← set_dynamic b this s; assign_all bs' this' s'
  end.

(** What calling a method of the object does: it may update the receiver
    and the shared store, or throw. *)
Definition method : Type := state -> store -> completion (state * store).

(** The method calls the constructor body makes, in order. *)
Inductive call := Call_config | Call_updateMap.

#[global] Instance call_eq_dec : EqDecision call.
Proof. solve_decision. Defined.

(** The object after lines 23-134: every field assignment of the
    constructor, before [config] runs.  [raycaster ? raycaster : false]
    keeps the reference when one is passed. *)
Definition fields (raycaster : option positive) : state :=
  {| _raycaster := raycaster;
     type := None;
     active := None;
     _dynamic := false;
     circle := false;
     object := Undefined;
     _points := [];
     _segments := [];
     notSupported := None |}.

(** [new Map(options, raycaster)], lines 14-141.

    [config] lives in [./config.js], outside the files embedded here,
    and [updateMap] is whatever method [config] installed in
    [this.updateMap]; both are taken as arguments.  The result pairs the
    log of the calls made by the constructor body with its completion. *)
Definition Map {Options : Type} (config : Options -> method) (updateMap : method)
    (options : Options) (raycaster : option positive) (s : store)
  : list call * completion (state * store) :=
  let this := fields raycaster in
  match config options this s with
  | Throw e => ([Call_config], Throw e)
  | Normal (this, s) =>
      if negb (truthy (notSupported this))
      then ([Call_config; Call_updateMap],
            '(this, s) ← updateMap this s; Normal (this, s))
      else ([Call_config], Normal (this, s))
  end.

(** How many times the constructor body invoked [updateMap]. *)
Definition updateMap_calls (log : list call) : nat :=
  length (filter (fun c => c = Call_updateMap) log).

End Map.

(** ** [Raycaster.Ray] *)

(** [Phaser.Math.MAX_SAFE_INTEGER], that is [Number.MAX_SAFE_INTEGER]. *)
Definition MAX_SAFE_INTEGER : Z := 9007199254740991.

(** [Phaser.Geom.Circle]. *)
Record Circle := mkCircle { cx : R; cy : R; radius : R }.

(** [Phaser.Geom.Triangle]. *)
Record Triangle := mkTriangle { v1 : Point; v2 : Point; v3 : Point }.

Module Ray.

(** [bodyType]: [false], [true], ['arcade'] or ['matter']. *)
Inductive physics := PhysicsBool (b : bool) | Arcade | Matter.

(** [ray._stats]. *)
Record Stats := mkStats {
  method : string;
  rays : Z;
  testedMappedObjects : Z;
  hitMappedObjects : Z;
  segments : Z;
  time : R
}.

Record state := mk {
  _raycaster : option positive;
  origin : Point;
  _ray : Line;
  angle : R;
  cone : R;
  rayRange : R;
  detectionRange : R;
  detectionRangeCircle : Circle;
  collisionRange : R;
  ignoreNotIntersectedRays : bool;
  round : bool;
  autoSlice : bool;
  intersections : list Point;
  slicedIntersections : list Triangle;
  bodyType : physics;
  _stats : Stats
}.

(** The options object documented at lines 11-23; every entry is
    optional. *)
Record Options := mkOptions {
  opt_origin : option Point;
  opt_angle : option R;
  opt_angleDeg : option R;
  opt_cone : option R;
  opt_coneDeg : option R;
  opt_range : option R;
  opt_collisionRange : option R;
  opt_detectionRange : option R;
  opt_ignoreNotIntersectedRays : option bool;
  opt_autoSlice : option bool;
  opt_round : option bool;
  opt_enablePhysics : option physics
}.

(** The [range] entry of the (itself optional) options argument. *)
Definition range_option (options : option Options) : option R :=
  o ← options; opt_range o.

(** The object after lines 35-205, before [config] runs.
    [new Phaser.Geom.Point()], [Line()] and [Circle()] are all zero. *)
Definition fields (raycaster : option positive) : state :=
  {| _raycaster := raycaster;
     origin := mkPoint 0 0;
     _ray := mkLine (mkPoint 0 0) (mkPoint 0 0);
     angle := 0;
     cone := 0;
     rayRange := IZR MAX_SAFE_INTEGER;
     detectionRange := 0;
     detectionRangeCircle := mkCircle 0 0 0;
     collisionRange := IZR MAX_SAFE_INTEGER;
     ignoreNotIntersectedRays := true;
     round := false;
     autoSlice := false;
     intersections := [];
     slicedIntersections := [];
     bodyType := PhysicsBool false;
     _stats := {| method := "cast"; rays := 0; testedMappedObjects := 0;
                  hitMappedObjects := 0; segments := 0; time := 0 |} |}.

(** [new Ray(options, raycaster)], lines 26-208.  [config] lives in
    [./config.js], outside the files embedded here, and is taken as an
    argument. *)
Definition Ray
    (config : option Options -> state -> store -> completion (state * store))
    (options : option Options) (raycaster : option positive) (s : store)
  : completion (state * store) :=
  let this := fields raycaster in
  config options this s.

End Ray.

(** ** Single-ray casting *)

Module Cast.

(** Modelled from the spec: the point reached from [o] after a distance
    [d] along [angle] ("origin extended by range along angle"). *)
Definition along (o : Point) (angle d : R) : Point :=
  {| px := px o + d * cos angle; py := py o + d * sin angle |}.

(** Modelled from the spec: distance between two points of the plane. *)
Definition distance (a b : Point) : R :=
  sqrt ((px b - px a) * (px b - px a) + (py b - py a) * (py b - py a)).

(** Modelled from the spec: "quantize to nearest integer", a half going
    up as [Math.round] has it. *)
Definition nearest_integer (v : R) : R := IZR (Int_part (v + / 2)).

(** Modelled from the spec: rounding of both coordinates (step 7). *)
Definition quantize (p : Point) : Point :=
  {| px := nearest_integer (px p); py := nearest_integer (py p) |}.

(** Modelled from the spec: the candidate closest to [o]; on a tie the
    one found first wins (step 4). *)
Fixpoint nearest (o : Point) (candidates : list Point) : option Point :=
  match candidates with
  | [] => None
  | c :: rest =>
      match nearest o rest with
      | None => Some c
      | Some c' => if Rle_dec (distance o c) (distance o c') then Some c else Some c'
      end
  end.

(** Modelled from the spec: [cast] ([ray/cast.js] is outside the files
    embedded here; [ray-core.js] only installs it on the prototype).
    Section 4.2 of the specification, step by step: a degenerate ray
    (range at most zero) yields none at once; inactive targets are left
    out; [hit_test] stands for the coarse filter and the fine
    intersection test of steps 2 and 3 and gives the candidate points of
    one target; the nearest candidate is selected (step 4) and clipped to
    the collision range (step 5); without a hit the result is none or the
    point at full range (step 6); the result is rounded on demand
    (step 7).  The statistics side effect is left out. *)
Definition cast (hit_test : Ray.state -> Map.state -> list Point)
    (ray : Ray.state) (targets : list Map.state) : option Point :=
  if Rle_dec (Ray.rayRange ray) 0 then None
  else
    let tested := filter (fun t => truthy (Map.active t) = true) targets in
    let candidates := flat_map (hit_test ray) tested in
    let result :=
      match nearest (Ray.origin ray) candidates with
      | Some hit =>
          if Rlt_dec (Ray.collisionRange ray) (distance (Ray.origin ray) hit)
          then Some (along (Ray.origin ray) (Ray.angle ray) (Ray.collisionRange ray))
          else Some hit
      | None =>
          if Ray.ignoreNotIntersectedRays ray then None
          else Some (along (Ray.origin ray) (Ray.angle ray) (Ray.rayRange ray))
      end in
    match result with
    | Some p => Some (if Ray.round ray then quantize p else p)
    | None => None
    end.

End Cast.

(** ** Sample objects *)

(** A raycaster tracking one dynamic object among three mapped ones. *)
Definition sample_raycaster : Raycaster :=
  {| dynamicMappedObjects := [Ref 5];
     _stats := {| mappedObjects := {| total := 3; static := 2; dynamic := 1 |} |} |}.

Definition sample_store : store := {[ 1%positive := sample_raycaster ]}.

(** A static map of object 7, attached to the sample raycaster. *)
Definition sample_map : Map.state :=
  {| Map._raycaster := Some 1%positive;
     Map.type := Some "Polygon";
     Map.active := Some true;
     Map._dynamic := false;
     Map.circle := false;
     Map.object := Ref 7;
     Map._points := [];
     Map._segments := [];
     Map.notSupported := None |}.

(** The same map without a parent raycaster. *)
Definition detached_map : Map.state :=
  {| Map._raycaster := None;
     Map.type := Some "Polygon";
     Map.active := Some true;
     Map._dynamic := false;
     Map.circle := false;
     Map.object := Ref 7;
     Map._points := [];
     Map._segments := [];
     Map.notSupported := None |}.

(** A [config] for trying the constructor: it stores the mapped object
    and raises the [notSupported] flag when told that the shape kind is
    not a supported one, without throwing. *)
Definition flagging_config (supported : bool) : Map.method :=
  fun this s =>
    Normal ({| Map._raycaster := Map._raycaster this;
               Map.type := Some (if supported then "Polygon" else "Zone")%string;
               Map.active := Some true;
               Map._dynamic := Map._dynamic this;
               Map.circle := Map.circle this;
               Map.object := Ref 7;
               Map._points := Map._points this;
               Map._segments := Map._segments this;
               Map.notSupported := if supported then None else Some true |}, s).

(** An [updateMap] for trying the constructor: it only marks the map as
    a circle. *)
Definition marking_updateMap : Map.method :=
  fun this s =>
    Normal ({| Map._raycaster := Map._raycaster this;
               Map.type := Map.type this;
               Map.active := Map.active this;
               Map._dynamic := Map._dynamic this;
               Map.circle := true;
               Map.object := Map.object this;
               Map._points := Map._points this;
               Map._segments := Map._segments this;
               Map.notSupported := Map.notSupported this |}, s).

(** The map [flagging_config true] leaves behind. *)
Definition supported_map : Map.state :=
  {| Map._raycaster := None;
     Map.type := Some "Polygon";
     Map.active := Some true;
     Map._dynamic := false;
     Map.circle := false;
     Map.object := Ref 7;
     Map._points := [];
     Map._segments := [];
     Map.notSupported := None |}.

(** The map [flagging_config false] leaves behind. *)
Definition unsupported_map : Map.state :=
  {| Map._raycaster := None;
     Map.type := Some "Zone";
     Map.active := Some true;
     Map._dynamic := false;
     Map.circle := false;
     Map.object := Ref 7;
     Map._points := [];
     Map._segments := [];
     Map.notSupported := Some true |}.

(** A [config] for trying the [Ray] constructor: it takes the range
    from the options when there is one and changes nothing else. *)
Definition range_config (options : option Ray.Options) (this : Ray.state) (s : store)
  : completion (Ray.state * store) :=
  Normal ({| Ray._raycaster := Ray._raycaster this;
             Ray.origin := Ray.origin this;
             Ray._ray := Ray._ray this;
             Ray.angle := Ray.angle this;
             Ray.cone := Ray.cone this;
             Ray.rayRange := default (Ray.rayRange this) (Ray.range_option options);
             Ray.detectionRange := Ray.detectionRange this;
             Ray.detectionRangeCircle := Ray.detectionRangeCircle this;
             Ray.collisionRange := Ray.collisionRange this;
             Ray.ignoreNotIntersectedRays := Ray.ignoreNotIntersectedRays this;
             Ray.round := Ray.round this;
             Ray.autoSlice := Ray.autoSlice this;
             Ray.intersections := Ray.intersections this;
             Ray.slicedIntersections := Ray.slicedIntersections this;
             Ray.bodyType := Ray.bodyType this;
             Ray._stats := Ray._stats this |}, s).

(** A ray from the origin at angle zero with the given range and flags. *)
Definition sample_ray (range : R) (ignore rounded : bool) : Ray.state :=
  {| Ray._raycaster := None;
     Ray.origin := mkPoint 0 0;
     Ray._ray := mkLine (mkPoint 0 0) (mkPoint range 0);
     Ray.angle := 0;
     Ray.cone := 0;
     Ray.rayRange := range;
     Ray.detectionRange := 0;
     Ray.detectionRangeCircle := mkCircle 0 0 0;
     Ray.collisionRange := IZR MAX_SAFE_INTEGER;
     Ray.ignoreNotIntersectedRays := ignore;
     Ray.round := rounded;
     Ray.autoSlice := false;
     Ray.intersections := [];
     Ray.slicedIntersections := [];
     Ray.bodyType := Ray.PhysicsBool false;
     Ray._stats := {| Ray.method := "cast"; Ray.rays := 0;
                      Ray.testedMappedObjects := 0; Ray.hitMappedObjects := 0;
                      Ray.segments := 0; Ray.time := 0 |} |}.

(** A second map on the sample raycaster, of another object. *)
Definition second_map : Map.state :=
  {| Map._raycaster := Some 1%positive;
     Map.type := Some "Arc";
     Map.active := Some true;
     Map._dynamic := false;
     Map.circle := true;
     Map.object := Ref 9;
     Map._points := [];
     Map._segments := [];
     Map.notSupported := None |}.

(** A second map of object 7 itself, on the same raycaster. *)
Definition twin_map : Map.state :=
  {| Map._raycaster := Some 1%positive;
     Map.type := Some "Polygon";
     Map.active := Some false;
     Map._dynamic := false;
     Map.circle := false;
     Map.object := Ref 7;
     Map._points := [];
     Map._segments := [];
     Map.notSupported := None |}.


(** A [config] that throws. *)
Definition throwing_config (options : bool) : Map.method :=
  fun _ _ => Throw TypeError.

(** A hit test that never finds anything. *)
Definition no_hit : Ray.state -> Map.state -> list Point := fun _ _ => [].

(** * Properties *)

(** ** The definitions at work *)

Example indexOf_first_match : indexOf (Ref 2) [Ref 1; Ref 2; Ref 2] = 1%Z.
Proof. reflexivity. Qed.

Example indexOf_no_match : indexOf (Ref 9) [Ref 1; Undefined] = (-1)%Z.
Proof. reflexivity. Qed.

Example splice1_inside : splice1 1 [Ref 1; Ref 2; Ref 3] = [Ref 1; Ref 3].
Proof. reflexivity. Qed.

Example splice1_from_end : splice1 (-1) [Ref 1; Ref 2; Ref 3] = [Ref 1; Ref 2].
Proof. reflexivity. Qed.

Example splice1_past_end : splice1 7 [Ref 1; Ref 2] = [Ref 1; Ref 2].
Proof. reflexivity. Qed.

Example remove_object_first_only :
  remove_object (Ref 2) [Ref 1; Ref 2; Ref 3; Ref 2] = [Ref 1; Ref 3; Ref 2].
Proof. reflexivity. Qed.

(** Making the sample map dynamic pushes object 7 behind object 5 and
    recounts: two dynamic objects, one static, three in total. *)
Example sample_map_made_dynamic :
  Map.set_dynamic true sample_map sample_store =
  Normal (Map.set__dynamic true sample_map,
          {[ 1%positive :=
               {| dynamicMappedObjects := [Ref 5; Ref 7];
                  _stats := {| mappedObjects :=
                    {| total := 3; static := 1; dynamic := 2 |} |} |} ]}).
Proof. vm_compute. reflexivity. Qed.

(** A map whose [_raycaster] does not lead to a raycaster throws as soon
    as the flag changes. *)
Example dangling_raycaster_throws :
  Map.set_dynamic true sample_map ∅ = Throw TypeError.
Proof. reflexivity. Qed.

Example constructor_log_supported :
  (Map.Map flagging_config marking_updateMap true None ∅).1 =
  [Map.Call_config; Map.Call_updateMap].
Proof. reflexivity. Qed.

Example constructor_log_unsupported :
  (Map.Map flagging_config marking_updateMap false None ∅).1 = [Map.Call_config].
Proof. reflexivity. Qed.

(** ** Arrays *)

Section arrays.
Implicit Types (x y : jsobj) (l : list jsobj).

Lemma indexOf_absent x l : x ∉ l -> indexOf x l = (-1)%Z.
Proof.
  intros Hx. unfold indexOf.
  assert (list_find (fun y => y = x) l = None) as ->; [|done].
  apply list_find_None, Forall_forall. intros y Hy ->. auto.
Qed.

Lemma indexOf_present x l :
  x ∈ l -> exists i : nat, indexOf x l = Z.of_nat i /\ l !! i = Some x.
Proof.
  intros Hx. unfold indexOf.
  destruct (list_find (fun y => y = x) l) as [[i y]|] eqn:E.
  - apply list_find_Some in E as (Hi & -> & _). eauto.
  - apply list_find_None in E. rewrite Forall_forall in E.
    destruct (E x Hx eq_refl).
Qed.

Lemma splice1_delete (i : nat) l :
  (i <= length l)%nat -> splice1 (Z.of_nat i) l = delete i l.
Proof.
  intros Hi. unfold splice1.
  destruct (Z.ltb_spec (Z.of_nat i) 0); [lia|].
  f_equal. lia.
Qed.

Lemma remove_object_absent x l : x ∉ l -> remove_object x l = l.
Proof. intros Hx. unfold remove_object. by rewrite indexOf_absent. Qed.

Lemma remove_object_present x l :
  x ∈ l -> exists i : nat, l !! i = Some x /\ remove_object x l = delete i l.
Proof.
  intros Hx. destruct (indexOf_present x l Hx) as (i & Hi & Hl).
  exists i. split; [done|]. unfold remove_object. rewrite Hi.
  destruct (Z.geb_spec (Z.of_nat i) 0); [|lia].
  apply splice1_delete. apply lookup_lt_Some in Hl. lia.
Qed.

Lemma occurrences_absent x l : occurrences x l = 0%nat <-> x ∉ l.
Proof.
  unfold occurrences. rewrite length_zero_iff_nil. split.
  - intros E Hx. assert (x ∈ filter (fun y => y = x) l) as Hf
      by by apply list_elem_of_filter.
    rewrite E in Hf. by apply not_elem_of_nil in Hf.
  - intros Hx. destruct (filter (fun y => y = x) l) as [|z k] eqn:E; [done|].
    assert (z ∈ filter (fun y => y = x) l) as Hz by (rewrite E; left).
    apply list_elem_of_filter in Hz as [-> Hz]. done.
Qed.

Lemma occurrences_app x l k :
  occurrences x (l ++ k) = (occurrences x l + occurrences x k)%nat.
Proof. unfold occurrences. by rewrite filter_app, length_app. Qed.

Lemma occurrences_self x : occurrences x [x] = 1%nat.
Proof. unfold occurrences. rewrite filter_cons. by case_decide. Qed.


Lemma occurrences_push x l : occurrences x (push x l) = S (occurrences x l).
Proof. unfold push. rewrite occurrences_app, occurrences_self. lia. Qed.

Lemma occurrences_delete x l (i : nat) :
  l !! i = Some x -> occurrences x (delete i l) = pred (occurrences x l).
Proof.
  intros Hl. rewrite delete_take_drop.
  rewrite <- (take_drop_middle l i x Hl) at 3.
  rewrite !occurrences_app.
  change (x :: drop (S i) l) with ([x] ++ drop (S i) l).
  rewrite occurrences_app, occurrences_self. lia.
Qed.

Lemma occurrences_delete_other x y l (i : nat) :
  l !! i = Some y -> x <> y -> occurrences x (delete i l) = occurrences x l.
Proof.
  intros Hl Hne. rewrite delete_take_drop.
  rewrite <- (take_drop_middle l i y Hl) at 3.
  rewrite !occurrences_app.
  change (y :: drop (S i) l) with ([y] ++ drop (S i) l).
  rewrite occurrences_app.
  assert (occurrences x [y] = 0%nat) as ->; [|lia].
  apply occurrences_absent. intros H. apply list_elem_of_singleton in H. done.
Qed.

Lemma occurrences_remove_object x l :
  occurrences x (remove_object x l) = pred (occurrences x l).
Proof.
  destruct (decide (x ∈ l)) as [Hx|Hx].
  - destruct (remove_object_present x l Hx) as (i & Hl & ->).
    by apply occurrences_delete.
  - rewrite remove_object_absent by done.
    apply occurrences_absent in Hx. by rewrite Hx.
Qed.

Lemma length_remove_object x l :
  x ∈ l -> length (remove_object x l) = pred (length l).
Proof.
  intros Hx. destruct (remove_object_present x l Hx) as (i & Hl & ->).
  rewrite length_delete by eauto. lia.
Qed.




End arrays.

(** ** The [dynamic] setter, one assignment *)

Section setter.
Import Map.
Implicit Types (this : state) (s : store) (rc : Raycaster) (b : bool).

Lemma set__dynamic_same this : set__dynamic (_dynamic this) this = this.
Proof. by destruct this. Qed.

Lemma set_dynamic_unchanged this s :
  set_dynamic (_dynamic this) this s = Normal (this, s).
Proof. unfold set_dynamic. by rewrite bool_decide_eq_true_2. Qed.

Lemma set_dynamic_detached b this s :
  _raycaster this = None ->
  set_dynamic b this s = Normal (set__dynamic b this, s).
Proof.
  intros Hr. unfold set_dynamic. case_bool_decide as Hb.
  - subst b. by rewrite set__dynamic_same.
  - destruct b; cbn; by rewrite Hr.
Qed.

Lemma set_dynamic_changed b this s r rc :
  _raycaster this = Some r -> s !! r = Some rc -> b <> _dynamic this ->
  set_dynamic b this s =
  Normal (set__dynamic b this, <[r := retrack b (object this) rc]> s).
Proof.
  intros Hr Hs Hb. unfold set_dynamic.
  rewrite bool_decide_eq_false_2 by congruence.
  destruct b; cbn; rewrite Hr; unfold deref; rewrite Hs; reflexivity.
Qed.

Lemma retrack_list b o rc :
  dynamicMappedObjects (retrack b o rc) =
  if b then push o (dynamicMappedObjects rc)
  else remove_object o (dynamicMappedObjects rc).
Proof. reflexivity. Qed.

Lemma retrack_total b o rc :
  total (mappedObjects (_stats (retrack b o rc))) =
  total (mappedObjects (_stats rc)).
Proof. reflexivity. Qed.

Lemma retrack_consistent b o rc : counters_consistent (retrack b o rc).
Proof. split; reflexivity. Qed.

(** Sharing: a flag-changing assignment on a map of object [o] does not
    change how often any other object is listed. *)
Lemma retrack_other b o o' rc :
  o' <> o ->
  occurrences o' (dynamicMappedObjects (retrack b o rc)) =
  occurrences o' (dynamicMappedObjects rc).
Proof.
  intros Hne. rewrite retrack_list. destruct b.
  - unfold push. rewrite occurrences_app.
    assert (occurrences o' [o] = 0%nat) as ->; [|lia].
    apply occurrences_absent. intros H. apply list_elem_of_singleton in H. done.
  - destruct (decide (o ∈ dynamicMappedObjects rc)) as [Ho|Ho].
    + destruct (remove_object_present o _ Ho) as (i & Hi & ->).
      by apply (occurrences_delete_other o' o).
    + by rewrite remove_object_absent.
Qed.


Lemma tracked_once_step b this rc :
  tracked_once this rc -> b <> _dynamic this ->
  tracked_once (set__dynamic b this) (retrack b (object this) rc).
Proof.
  unfold tracked_once. intros H Hb. rewrite retrack_list. cbn.
  destruct b, (_dynamic this); try done.
  - by rewrite occurrences_push, H.
  - by rewrite occurrences_remove_object, H.
Qed.

(** A property of the map and its raycaster that every flag-changing
    assignment keeps is kept by every sequence of assignments, none of
    which throws. *)
Lemma assign_all_invariant (I : state -> Raycaster -> Prop) r :
  (forall this rc b, _raycaster this = Some r -> I this rc -> b <> _dynamic this ->
     I (set__dynamic b this) (retrack b (object this) rc)) ->
  forall bs this s rc,
    _raycaster this = Some r -> s !! r = Some rc -> I this rc ->
    exists this' s' rc',
      assign_all bs this s = Normal (this', s') /\ s' !! r = Some rc' /\
      _raycaster this' = Some r /\ object this' = object this /\ I this' rc'.
Proof.
  intros Hstep bs. induction bs as [|b bs IH]; intros this s rc Hr Hs HI.
  - exists this, s, rc. by cbn.
  - cbn [assign_all]. destruct (decide (b = _dynamic this)) as [->|Hb].
    + rewrite set_dynamic_unchanged. cbn. by apply (IH this s rc).
    + rewrite (set_dynamic_changed b this s r rc) by done. cbn.
      destruct (IH (set__dynamic b this) (<[r := retrack b (object this) rc]> s)
                  (retrack b (object this) rc))
        as (this' & s' & rc' & E & Hs' & Hr' & Ho & HI');
        [done | apply lookup_insert_eq | by apply Hstep |].
      exists this', s', rc'. by rewrite E, Hs', Hr', Ho.
Qed.
End setter.

(** ** The [dynamic] setter, the registry properties *)

Section registry.
Import Map.
Implicit Types (this : state) (s : store) (rc : Raycaster) (b : bool).





(** C4.  Assigning [dynamic] the value the flag already has returns at
    once: the map (its flag included) and the whole store, hence the
    dynamic list and the static, dynamic and total counters of every
    raycaster, are unchanged.  This holds with or without a parent
    raycaster. *)
Theorem dynamic_same_value_noop this s b :
  b = _dynamic this ->
  set_dynamic b this s = Normal (this, s).
Proof. intros ->. apply set_dynamic_unchanged. Qed.

Lemma dynamic_same_value_noop_witness :
  set_dynamic false sample_map sample_store = Normal (sample_map, sample_store).
Proof. apply (dynamic_same_value_noop sample_map sample_store false). reflexivity. Defined.

(** C5.  After an assignment to [dynamic] that changes the flag of a
    map attached to a raycaster, the raycaster's dynamic counter is the
    length of [dynamicMappedObjects], its static counter is the total
    minus the dynamic counter, so that static plus dynamic is the
    total; the total itself is not touched. *)
Theorem dynamic_change_recounts this s r rc b :
  _raycaster this = Some r -> s !! r = Some rc -> b <> _dynamic this ->
  exists this' s' rc',
    set_dynamic b this s = Normal (this', s') /\ s' !! r = Some rc' /\
    dynamic (mappedObjects (_stats rc')) =
      Z.of_nat (length (dynamicMappedObjects rc')) /\
    static (mappedObjects (_stats rc')) =
      (total (mappedObjects (_stats rc')) - dynamic (mappedObjects (_stats rc')))%Z /\
    (static (mappedObjects (_stats rc')) + dynamic (mappedObjects (_stats rc')))%Z =
      total (mappedObjects (_stats rc')) /\
    total (mappedObjects (_stats rc')) = total (mappedObjects (_stats rc)).
Proof.
  intros Hr Hs Hb. eexists _, _, _.
  split; [by apply (set_dynamic_changed b this s r rc)|].
  split; [apply lookup_insert_eq|].
  destruct (retrack_consistent b (object this) rc) as [Hd Hst].
  split; [done|]. split; [done|]. split; [|apply retrack_total].
  rewrite Hst. lia.
Qed.

Lemma dynamic_change_recounts_witness :
  exists this' s' rc',
    set_dynamic true sample_map sample_store = Normal (this', s') /\
    s' !! 1%positive = Some rc' /\
    dynamic (mappedObjects (_stats rc')) =
      Z.of_nat (length (dynamicMappedObjects rc')) /\
    static (mappedObjects (_stats rc')) =
      (total (mappedObjects (_stats rc')) - dynamic (mappedObjects (_stats rc')))%Z /\
    (static (mappedObjects (_stats rc')) + dynamic (mappedObjects (_stats rc')))%Z =
      total (mappedObjects (_stats rc')) /\
    total (mappedObjects (_stats rc')) = 3%Z.
Proof.
  apply (dynamic_change_recounts sample_map sample_store 1%positive
           sample_raycaster true); [reflexivity | reflexivity | discriminate].
Defined.




(** C10.  For a map without a parent raycaster, an assignment to
    [dynamic] completes without throwing, whatever the store holds;
    the resulting map differs from the original in the [_dynamic] flag
    at most, and the store (every dynamic list and every counter) is
    returned as it was. *)
Theorem dynamic_detached_only_flag this s b :
  _raycaster this = None ->
  set_dynamic b this s = Normal (set__dynamic b this, s).
Proof. apply set_dynamic_detached. Qed.

Lemma dynamic_detached_only_flag_witness :
  set_dynamic true detached_map sample_store =
  Normal (set__dynamic true detached_map, sample_store).
Proof. apply (dynamic_detached_only_flag detached_map sample_store true). reflexivity. Defined.
End registry.




(** ** The [Map] constructor *)

Section constructor.
Import Map.
Context {Options : Type}.
Variables (config : Options -> method) (updateMap : method).
Implicit Types (options : Options) (raycaster : option positive) (s : store).

Lemma Map_throwing options raycaster s e :
  config options (fields raycaster) s = Throw e ->
  Map config updateMap options raycaster s = ([Call_config], Throw e).
Proof. intros E. unfold Map. by rewrite E. Qed.

Lemma Map_supported options raycaster s this' s' :
  config options (fields raycaster) s = Normal (this', s') ->
  truthy (notSupported this') = false ->
  Map config updateMap options raycaster s =
  ([Call_config; Call_updateMap], updateMap this' s').
Proof.
  intros E Hn. unfold Map. rewrite E, Hn. cbn. f_equal.
  by destruct (updateMap this' s') as [[? ?]|].
Qed.

Lemma Map_unsupported options raycaster s this' s' :
  config options (fields raycaster) s = Normal (this', s') ->
  truthy (notSupported this') = true ->
  Map config updateMap options raycaster s = ([Call_config], Normal (this', s')).
Proof. intros E Hn. unfold Map. by rewrite E, Hn. Qed.

(** C2, as the code has it.  When [config] returns with the
    [notSupported] flag raised, the constructor throws nothing:
    construction completes, [updateMap] is skipped, and the map is
    returned exactly as [config] left it, so its [_points] and
    [_segments] caches are still the empty arrays of the constructor
    unless [config] itself filled them. *)
Theorem unsupported_shape_still_constructed options raycaster s this' s' :
  config options (fields raycaster) s = Normal (this', s') ->
  truthy (notSupported this') = true ->
  Map config updateMap options raycaster s = ([Call_config], Normal (this', s')).
Proof. apply Map_unsupported. Qed.

(** C6.  When [config] returns normally, the constructor body invokes
    [updateMap] exactly once if the shape is supported ([notSupported]
    not raised), completing as that call does, and not at all if the
    shape is unsupported ([notSupported] raised). *)
Theorem constructor_updateMap_once options raycaster s this' s' :
  config options (fields raycaster) s = Normal (this', s') ->
  (truthy (notSupported this') = false ->
     updateMap_calls (Map config updateMap options raycaster s).1 = 1%nat /\
     (Map config updateMap options raycaster s).2 = updateMap this' s') /\
  (truthy (notSupported this') = true ->
     updateMap_calls (Map config updateMap options raycaster s).1 = 0%nat).
Proof.
  intros E. split; intros Hn.
  - by rewrite (Map_supported options raycaster s this' s').
  - by rewrite (Map_unsupported options raycaster s this' s').
Qed.
End constructor.

Lemma unsupported_shape_still_constructed_witness :
  Map.Map flagging_config marking_updateMap false None ∅ =
  ([Map.Call_config], Normal (unsupported_map, ∅)).
Proof.
  apply (unsupported_shape_still_constructed flagging_config marking_updateMap
           false None ∅ unsupported_map ∅); reflexivity.
Defined.

(** C2, as stated, fails: for a shape that [config] flags as
    unsupported the constructor does not throw; it completes and
    returns a map whose derived caches are empty. *)
Lemma unsupported_shape_counterexample :
  (Map.Map flagging_config marking_updateMap false None ∅).2 =
    Normal (unsupported_map, ∅) /\
  truthy (Map.notSupported unsupported_map) = true /\
  Map._points unsupported_map = [] /\
  Map._segments unsupported_map = [] /\
  ~ (exists e, (Map.Map flagging_config marking_updateMap false None ∅).2 = Throw e).
Proof.
  repeat split. intros [e He]. discriminate He.
Qed.

Lemma constructor_updateMap_once_witness :
  Map.updateMap_calls (Map.Map flagging_config marking_updateMap true None ∅).1 = 1%nat /\
  Map.updateMap_calls (Map.Map flagging_config marking_updateMap false None ∅).1 = 0%nat.
Proof.
  split.
  - apply (constructor_updateMap_once flagging_config marking_updateMap true None ∅
             supported_map ∅ eq_refl). reflexivity.
  - apply (constructor_updateMap_once flagging_config marking_updateMap false None ∅
             unsupported_map ∅ eq_refl). reflexivity.
Defined.

(** ** The [Ray] constructor *)

Section ray_constructor.
Import Ray.
Variable config : option Options -> state -> store -> completion (state * store).

(** [config] assigns [rayRange] from the [range] entry only: called
    with options that carry none, it leaves the field alone. *)
Hypothesis config_keeps_range :
  forall options this s this' s',
    range_option options = None ->
    config options this s = Normal (this', s') ->
    rayRange this' = rayRange this.

(** C8.  A ray constructed without a [range] option (no options at
    all, or options without that entry) has [rayRange] equal to
    [Phaser.Math.MAX_SAFE_INTEGER]. *)
Theorem ray_default_range options raycaster s this' s' :
  range_option options = None ->
  Ray config options raycaster s = Normal (this', s') ->
  rayRange this' = IZR MAX_SAFE_INTEGER.
Proof.
  intros Hopt E. unfold Ray in E.
  by rewrite (config_keeps_range options (fields raycaster) s this' s' Hopt E).
Qed.
End ray_constructor.

Lemma ray_default_range_witness :
  exists this' s',
    Ray.Ray range_config None None ∅ = Normal (this', s') /\
    Ray.rayRange this' = IZR MAX_SAFE_INTEGER.
Proof.
  eexists _, _. split; [reflexivity|].
  apply (ray_default_range range_config) with (options := None) (raycaster := None)
    (s := ∅) (s' := ∅); [|reflexivity|reflexivity].
  intros options this s this1 s1 Hopt E. unfold range_config in E.
  rewrite Hopt in E. by inversion E.
Defined.

(** ** Casting without obstacles *)

Section casting.
Import Cast.
Local Open Scope R_scope.

Lemma distance_along (o : Point) (angle d : R) :
  0 <= d -> distance o (along o angle d) = d.
Proof.
  intros Hd. unfold distance, along. cbn.
  replace ((px o + d * cos angle - px o) * (px o + d * cos angle - px o) +
           (py o + d * sin angle - py o) * (py o + d * sin angle - py o))
    with (d * d * ((sin angle)² + (cos angle)²)) by (unfold Rsqr; ring).
  rewrite sin2_cos2, Rmult_1_r. by apply sqrt_square.
Qed.

(** C7, as the specification's casting procedure has it.  For every
    ray with range [R] and no obstacles, [cast] returns none when
    [ignoreNotIntersectedRays] is true.  When it is false, [cast]
    returns the point along the ray's angle whose distance from the
    origin is exactly [R], provided [R] is positive and rounding is
    switched off; for a range of zero or less it returns none, and with
    rounding switched on it returns that point with both coordinates
    rounded. *)
Theorem cast_without_obstacles hit_test (ray : Ray.state) :
  (Ray.ignoreNotIntersectedRays ray = true -> cast hit_test ray [] = None) /\
  (Ray.ignoreNotIntersectedRays ray = false ->
   0 < Ray.rayRange ray -> Ray.round ray = false ->
     cast hit_test ray [] =
       Some (along (Ray.origin ray) (Ray.angle ray) (Ray.rayRange ray)) /\
     distance (Ray.origin ray)
       (along (Ray.origin ray) (Ray.angle ray) (Ray.rayRange ray)) = Ray.rayRange ray) /\
  (Ray.ignoreNotIntersectedRays ray = false ->
   Ray.rayRange ray <= 0 -> cast hit_test ray [] = None) /\
  (Ray.ignoreNotIntersectedRays ray = false ->
   0 < Ray.rayRange ray -> Ray.round ray = true ->
     cast hit_test ray [] =
       Some (quantize (along (Ray.origin ray) (Ray.angle ray) (Ray.rayRange ray)))).
Proof.
  split; [|split; [|split]].
  - intros Hi. unfold cast.
    destruct (Rle_dec (Ray.rayRange ray) 0); [reflexivity|]. cbn. by rewrite Hi.
  - intros Hi HR Hround. split.
    + unfold cast. destruct (Rle_dec (Ray.rayRange ray) 0) as [Hle|_]; [lra|].
      cbn. by rewrite Hi, Hround.
    + apply distance_along. lra.
  - intros _ HR. unfold cast.
    destruct (Rle_dec (Ray.rayRange ray) 0) as [_|Hgt]; [reflexivity|lra].
  - intros Hi HR Hround. unfold cast.
    destruct (Rle_dec (Ray.rayRange ray) 0) as [Hle|_]; [lra|].
    cbn. by rewrite Hi, Hround.
Qed.

Lemma cast_without_obstacles_witness :
  cast no_hit (sample_ray 10 false false) [] = Some (along (mkPoint 0 0) 0 10) /\
  distance (mkPoint 0 0) (along (mkPoint 0 0) 0 10) = 10.
Proof.
  pose proof (cast_without_obstacles no_hit (sample_ray 10 false false))
    as (_ & Hpoint & _).
  apply Hpoint.
  - reflexivity.
  - cbn. lra.
  - reflexivity.
Defined.

(** C7, as stated, fails in two ways.  A ray of range zero that does
    not ignore misses gets none, not the point at distance zero; and a
    rounding ray of range one half gets the point (1, 0), at distance
    one from the origin. *)
Lemma cast_without_obstacles_counterexample :
  (Ray.ignoreNotIntersectedRays (sample_ray 0 false false) = false /\
   cast no_hit (sample_ray 0 false false) [] = None) /\
  (Ray.ignoreNotIntersectedRays (sample_ray (/ 2) false true) = false /\
   cast no_hit (sample_ray (/ 2) false true) [] = Some (mkPoint 1 0) /\
   distance (Ray.origin (sample_ray (/ 2) false true)) (mkPoint 1 0)
     <> Ray.rayRange (sample_ray (/ 2) false true)).
Proof.
  split; [split; [reflexivity|]|split; [reflexivity|split]].
  - unfold cast. cbn. destruct (Rle_dec 0 0) as [_|Hn]; [reflexivity|lra].
  - unfold cast. cbn. destruct (Rle_dec (/ 2) 0) as [Hle|_]; [lra|].
    unfold quantize, along, nearest_integer. cbn. rewrite cos_0, sin_0.
    do 2 f_equal; f_equal; symmetry; apply Int_part_spec; lra.
  - unfold distance. cbn.
    replace ((1 - 0) * (1 - 0) + (0 - 0) * (0 - 0)) with 1 by ring.
    rewrite sqrt_1. lra.
Qed.
End casting.


(** * Further properties of the [Map] core *)

(** ** One assignment, case by case *)

Section setter_cases.
Import Map.
Implicit Types (this : state) (s : store) (rc : Raycaster) (b : bool).

Lemma set_dynamic_dangling b this s r :
  _raycaster this = Some r -> s !! r = None -> b <> _dynamic this ->
  set_dynamic b this s = Throw TypeError.
Proof.
  intros Hr Hs Hb. unfold set_dynamic.
  rewrite bool_decide_eq_false_2 by congruence.
  destruct b; cbn; rewrite Hr; unfold deref; rewrite Hs; reflexivity.
Qed.

(** The four ways an assignment can go. *)
Lemma set_dynamic_cases b this s :
  (b = _dynamic this /\ set_dynamic b this s = Normal (this, s)) \/
  (b <> _dynamic this /\ _raycaster this = None /\
     set_dynamic b this s = Normal (set__dynamic b this, s)) \/
  (b <> _dynamic this /\ exists r rc,
     _raycaster this = Some r /\ s !! r = Some rc /\
     set_dynamic b this s =
       Normal (set__dynamic b this, <[r := retrack b (object this) rc]> s)) \/
  (b <> _dynamic this /\ exists r,
     _raycaster this = Some r /\ s !! r = None /\
     set_dynamic b this s = Throw TypeError).
Proof.
  destruct (decide (b = _dynamic this)) as [->|Hb].
  - left. split; [done|]. apply set_dynamic_unchanged.
  - right. destruct (_raycaster this) as [r|] eqn:Hr.
    + right. destruct (s !! r) as [rc|] eqn:Hs.
      * left. split; [done|]. exists r, rc. repeat split; try done.
        by apply set_dynamic_changed.
      * right. split; [done|]. exists r. repeat split; try done.
        by apply (set_dynamic_dangling b this s r).
    + left. repeat split; try done. by apply set_dynamic_detached.
Qed.

Lemma set_dynamic_receiver b this s this' s' :
  set_dynamic b this s = Normal (this', s') -> this' = set__dynamic b this.
Proof.
  intros E.
  destruct (set_dynamic_cases b this s)
    as [[-> E']|[(_ & _ & E')|[(_ & r & rc & _ & _ & E')|(_ & r & _ & _ & E')]]];
    rewrite E' in E; inversion E; subst; try done.
  by rewrite set__dynamic_same.
Qed.

(** X1.  An assignment to [dynamic] on a map that has no parent
    raycaster, or whose parent reference leads to a raycaster,
    completes, and reading [dynamic] back gives the value assigned. *)
Theorem dynamic_set_then_get b this s :
  (_raycaster this = None \/ exists r, _raycaster this = Some r /\ is_Some (s !! r)) ->
  exists this' s',
    set_dynamic b this s = Normal (this', s') /\ get_dynamic this' = b.
Proof.
  intros Hp.
  destruct (set_dynamic_cases b this s)
    as [[-> E]|[(_ & _ & E)|[(_ & r & rc & _ & _ & E)|(_ & r & Hr & Hs & _)]]].
  - by exists this, s.
  - by eexists _, _.
  - by eexists _, _.
  - destruct Hp as [Hn|(r' & Hr' & [rc Hrc])]; [congruence|].
    rewrite Hr in Hr'. inversion Hr'; subst. congruence.
Qed.

Lemma dynamic_set_then_get_witness :
  exists this' s',
    set_dynamic true sample_map sample_store = Normal (this', s') /\
    get_dynamic this' = true.
Proof.
  apply (dynamic_set_then_get true sample_map sample_store).
  right. exists 1%positive. split; [reflexivity|]. exists sample_raycaster. reflexivity.
Defined.

(** X2.  A completed assignment to [dynamic] leaves every other field
    of the map as it was: parent reference, type, active flag, circle
    flag, mapped object, point and segment caches, support flag. *)
Theorem dynamic_setter_keeps_other_fields b this s this' s' :
  set_dynamic b this s = Normal (this', s') ->
  _raycaster this' = _raycaster this /\ type this' = type this /\
  active this' = active this /\ circle this' = circle this /\
  object this' = object this /\ _points this' = _points this /\
  _segments this' = _segments this /\ notSupported this' = notSupported this.
Proof. intros ->%set_dynamic_receiver. by repeat split. Qed.

Lemma dynamic_setter_keeps_other_fields_witness :
  _raycaster (set__dynamic true sample_map) = _raycaster sample_map /\
  type (set__dynamic true sample_map) = type sample_map /\
  active (set__dynamic true sample_map) = active sample_map /\
  circle (set__dynamic true sample_map) = circle sample_map /\
  object (set__dynamic true sample_map) = object sample_map /\
  _points (set__dynamic true sample_map) = _points sample_map /\
  _segments (set__dynamic true sample_map) = _segments sample_map /\
  notSupported (set__dynamic true sample_map) = notSupported sample_map.
Proof.
  apply (dynamic_setter_keeps_other_fields true sample_map sample_store
           (set__dynamic true sample_map)
           (<[1%positive := retrack true (Ref 7) sample_raycaster]> sample_store)).
  reflexivity.
Defined.

(** X3.  A completed assignment to [dynamic] writes to the parent
    raycaster only: every other raycaster of the store is left as it
    was, and no raycaster is added to or removed from the store. *)
Theorem dynamic_setter_other_raycasters b this s this' s' :
  set_dynamic b this s = Normal (this', s') ->
  (forall r', _raycaster this <> Some r' -> s' !! r' = s !! r') /\
  dom s' = dom s.
Proof.
  intros E.
  destruct (set_dynamic_cases b this s)
    as [[-> E']|[(_ & _ & E')|[(_ & r & rc & Hr & Hs & E')|(_ & r & _ & _ & E')]]];
    rewrite E' in E; inversion E; subst; try done.
  split.
  - intros r' Hne. apply lookup_insert_ne. congruence.
  - rewrite dom_insert_L. pose proof (elem_of_dom_2 _ _ _ Hs) as Hd.
    apply set_eq. intros k. rewrite elem_of_union, elem_of_singleton.
    split; [intros [->|Hk]; done | auto].
Qed.

Lemma dynamic_setter_other_raycasters_witness :
  (<[1%positive := retrack true (Ref 7) sample_raycaster]> sample_store) !! 2%positive =
    sample_store !! 2%positive /\
  dom (<[1%positive := retrack true (Ref 7) sample_raycaster]> sample_store) =
    dom sample_store.
Proof.
  pose proof (dynamic_setter_other_raycasters true sample_map sample_store
                (set__dynamic true sample_map)
                (<[1%positive := retrack true (Ref 7) sample_raycaster]> sample_store)
                eq_refl) as [Hother Hdom].
  split; [apply Hother; discriminate | exact Hdom].
Defined.

(** X4.  An assignment to [dynamic] throws exactly when it changes the
    flag of a map whose parent reference does not lead to a raycaster.
    Assigning the current value never throws, whatever the parent
    reference is: the early return comes before any access to it. *)
Theorem dynamic_setter_throws_iff b this s :
  set_dynamic b this s = Throw TypeError <->
  b <> _dynamic this /\ exists r, _raycaster this = Some r /\ s !! r = None.
Proof.
  destruct (set_dynamic_cases b this s)
    as [[Hb E]|[(Hb & Hr & E)|[(Hb & r & rc & Hr & Hs & E)|(Hb & r & Hr & Hs & E)]]];
    rewrite E; split; try done.
  - intros [Hne _]. done.
  - intros (_ & r & Hr' & _). congruence.
  - intros (_ & r' & Hr' & Hs'). congruence.
  - intros _. split; [done|]. by exists r.
Qed.
End setter_cases.

(** ** Sequences of assignments and maps sharing a raycaster *)

Section sharing.
Import Map.
Implicit Types (this : state) (s : store) (rc : Raycaster) (b : bool).
Implicit Types (o x : jsobj) (l : list jsobj).

Lemma others_push o l :
  filter (fun y => y <> o) (push o l) = filter (fun y => y <> o) l.
Proof.
  unfold push. rewrite filter_app, filter_cons, filter_nil.
  case_decide; [done|]. apply app_nil_r.
Qed.

Lemma others_remove_object o l :
  filter (fun y => y <> o) (remove_object o l) = filter (fun y => y <> o) l.
Proof.
  destruct (decide (o ∈ l)) as [Ho|Ho].
  - destruct (remove_object_present o l Ho) as (i & Hi & ->).
    rewrite delete_take_drop. rewrite <- (take_drop_middle l i o Hi) at 3.
    rewrite !filter_app, filter_cons. by case_decide.
  - by rewrite remove_object_absent.
Qed.

Lemma occurrences_present x l : x ∈ l <-> (0 < occurrences x l)%nat.
Proof.
  split.
  - intros Hx. destruct (decide (occurrences x l = 0%nat)) as [H0|H0]; [|lia].
    apply occurrences_absent in H0. done.
  - intros Hpos. destruct (decide (x ∈ l)) as [|Hn]; [done|].
    apply occurrences_absent in Hn. lia.
Qed.

(** X5.  Whatever boolean values are assigned to [dynamic] on a map
    attached to a raycaster, in whatever number, the assignments
    complete, the raycaster's total counter is never written, and
    counters that agreed with the dynamic list before agree with it
    afterwards. *)
Theorem dynamic_sequence_counters this s r rc bs :
  _raycaster this = Some r -> s !! r = Some rc ->
  exists this' s' rc',
    assign_all bs this s = Normal (this', s') /\ s' !! r = Some rc' /\
    total (mappedObjects (_stats rc')) = total (mappedObjects (_stats rc)) /\
    (counters_consistent rc -> counters_consistent rc').
Proof.
  intros Hr Hs.
  destruct (assign_all_invariant
              (fun _ rc' =>
                 total (mappedObjects (_stats rc')) = total (mappedObjects (_stats rc)) /\
                 (counters_consistent rc -> counters_consistent rc')) r)
    with (bs := bs) (this := this) (s := s) (rc := rc)
    as (this' & s' & rc' & E & Hs' & _ & _ & Ht & Hc); try done.
  - intros this0 rc0 b _ [Ht _] _. split.
    + by rewrite retrack_total.
    + intros _. apply retrack_consistent.
  - by exists this', s', rc'.
Qed.

Lemma dynamic_sequence_counters_witness :
  exists this' s' rc',
    assign_all [true; true; false] sample_map sample_store = Normal (this', s') /\
    s' !! 1%positive = Some rc' /\
    total (mappedObjects (_stats rc')) = 3%Z /\
    (counters_consistent sample_raycaster -> counters_consistent rc').
Proof.
  apply (dynamic_sequence_counters sample_map sample_store 1%positive sample_raycaster);
    reflexivity.
Defined.

(** X6.  Assignments to [dynamic] on a map attached to a raycaster never
    disturb the other objects of the dynamic list: after any sequence
    of assignments the entries other than the mapped object are the
    same, in the same order. *)
Theorem dynamic_sequence_keeps_other_objects this s r rc bs :
  _raycaster this = Some r -> s !! r = Some rc ->
  exists this' s' rc',
    assign_all bs this s = Normal (this', s') /\ s' !! r = Some rc' /\
    filter (fun y => y <> object this) (dynamicMappedObjects rc') =
    filter (fun y => y <> object this) (dynamicMappedObjects rc).
Proof.
  intros Hr Hs.
  destruct (assign_all_invariant
              (fun this' rc' =>
                 object this' = object this /\
                 filter (fun y => y <> object this) (dynamicMappedObjects rc') =
                 filter (fun y => y <> object this) (dynamicMappedObjects rc)) r)
    with (bs := bs) (this := this) (s := s) (rc := rc)
    as (this' & s' & rc' & E & Hs' & _ & _ & _ & Hf); try done.
  - intros this0 rc0 b _ [Ho Hf] _. split; [done|].
    rewrite retrack_list, Ho. destruct b.
    + by rewrite others_push.
    + by rewrite others_remove_object.
  - by exists this', s', rc'.
Qed.

Lemma dynamic_sequence_keeps_other_objects_witness :
  exists this' s' rc',
    assign_all [true; false; true] sample_map sample_store = Normal (this', s') /\
    s' !! 1%positive = Some rc' /\
    filter (fun y => y <> Ref 7) (dynamicMappedObjects rc') =
    filter (fun y => y <> Ref 7) [Ref 5].
Proof.
  apply (dynamic_sequence_keeps_other_objects sample_map sample_store 1%positive
           sample_raycaster); reflexivity.
Defined.

(** X7.  An assignment that changes the flag of a map attached to a
    raycaster changes the number of entries of its object in the
    dynamic list by exactly one step: setting the flag pushes one more
    entry whether or not the object is already listed, clearing it
    removes one entry if there is any and nothing otherwise.  The
    dynamic counter is the new length. *)
Theorem dynamic_change_adds_or_removes_one this s r rc b :
  _raycaster this = Some r -> s !! r = Some rc -> b <> _dynamic this ->
  exists this' s' rc',
    set_dynamic b this s = Normal (this', s') /\ s' !! r = Some rc' /\
    occurrences (object this) (dynamicMappedObjects rc') =
      (if b then S (occurrences (object this) (dynamicMappedObjects rc))
       else pred (occurrences (object this) (dynamicMappedObjects rc))) /\
    length (dynamicMappedObjects rc') =
      (if b then S (length (dynamicMappedObjects rc))
       else if decide (object this ∈ dynamicMappedObjects rc)
            then pred (length (dynamicMappedObjects rc))
            else length (dynamicMappedObjects rc)) /\
    dynamic (mappedObjects (_stats rc')) = Z.of_nat (length (dynamicMappedObjects rc')).
Proof.
  intros Hr Hs Hb. eexists _, _, _.
  split; [by apply (set_dynamic_changed b this s r rc)|].
  split; [apply lookup_insert_eq|].
  rewrite retrack_list. split; [|split; [|reflexivity]].
  - destruct b; [apply occurrences_push | apply occurrences_remove_object].
  - destruct b.
    + unfold push. rewrite length_app. cbn. lia.
    + case_decide as Ho.
      * by apply length_remove_object.
      * by rewrite remove_object_absent.
Qed.

Lemma dynamic_change_adds_or_removes_one_witness :
  exists this' s' rc',
    set_dynamic true sample_map sample_store = Normal (this', s') /\
    s' !! 1%positive = Some rc' /\
    occurrences (Ref 7) (dynamicMappedObjects rc') = 1%nat /\
    length (dynamicMappedObjects rc') = 2%nat /\
    dynamic (mappedObjects (_stats rc')) = Z.of_nat (length (dynamicMappedObjects rc')).
Proof.
  apply (dynamic_change_adds_or_removes_one sample_map sample_store 1%positive
           sample_raycaster true); [reflexivity | reflexivity | discriminate].
Defined.

(** X8.  Assigning the same value to [dynamic] twice in a row does what
    assigning it once does, for every map and every store. *)
Theorem dynamic_assign_twice b this s :
  assign_all [b; b] this s = assign_all [b] this s.
Proof.
  cbn [assign_all].
  destruct (set_dynamic b this s) as [[this1 s1]|e] eqn:E; [|done]. cbn.
  pose proof (set_dynamic_receiver b this s this1 s1 E) as ->.
  change b with (_dynamic (set__dynamic b this)) at 1.
  by rewrite set_dynamic_unchanged.
Qed.

(** X9.  Two maps of different objects that share a raycaster do not
    interfere: whatever is assigned to [dynamic] on the first, the
    object of the second stays listed as often as before, so that it is
    in the dynamic list afterwards exactly if it was before, and a
    second map that was tracked consistently still is. *)
Theorem dynamic_other_map_undisturbed this this2 s r rc bs :
  _raycaster this = Some r -> s !! r = Some rc ->
  object this2 <> object this ->
  exists this' s' rc',
    assign_all bs this s = Normal (this', s') /\ s' !! r = Some rc' /\
    (object this2 ∈ dynamicMappedObjects rc' <-> object this2 ∈ dynamicMappedObjects rc) /\
    (tracked_once this2 rc -> tracked_once this2 rc').
Proof.
  intros Hr Hs Hne.
  destruct (assign_all_invariant
              (fun this' rc' =>
                 object this' = object this /\
                 occurrences (object this2) (dynamicMappedObjects rc') =
                 occurrences (object this2) (dynamicMappedObjects rc)) r)
    with (bs := bs) (this := this) (s := s) (rc := rc)
    as (this' & s' & rc' & E & Hs' & _ & _ & _ & Hocc); try done.
  - intros this0 rc0 b _ [Ho Hocc] _. split; [done|].
    rewrite Ho, retrack_other; done.
  - exists this', s', rc'. split; [done|]. split; [done|]. split.
    + by rewrite !occurrences_present, Hocc.
    + unfold tracked_once. by rewrite Hocc.
Qed.

Lemma dynamic_other_map_undisturbed_witness :
  exists this' s' rc',
    assign_all [true; false; true] sample_map sample_store = Normal (this', s') /\
    s' !! 1%positive = Some rc' /\
    (Ref 9 ∈ dynamicMappedObjects rc' <-> Ref 9 ∈ [Ref 5]) /\
    (tracked_once second_map sample_raycaster -> tracked_once second_map rc').
Proof.
  apply (dynamic_other_map_undisturbed sample_map second_map sample_store 1%positive
           sample_raycaster); [reflexivity | reflexivity | discriminate].
Defined.

(** X10.  The setter does not look for the object before pushing it,
    and removes one entry only.  So when two maps of one and the same
    unlisted object share a raycaster and both are made dynamic, making
    the first static again leaves the object in the dynamic list
    although that map's flag is now false. *)
Theorem dynamic_same_object_twice this this2 s r rc :
  _raycaster this = Some r -> _raycaster this2 = Some r -> s !! r = Some rc ->
  object this2 = object this ->
  _dynamic this = false -> _dynamic this2 = false ->
  object this ∉ dynamicMappedObjects rc ->
  exists this_a s1 this2_a s2 this_b s3 rc3,
    set_dynamic true this s = Normal (this_a, s1) /\
    set_dynamic true this2 s1 = Normal (this2_a, s2) /\
    set_dynamic false this_a s2 = Normal (this_b, s3) /\
    s3 !! r = Some rc3 /\
    _dynamic this_b = false /\
    object this_b ∈ dynamicMappedObjects rc3 /\
    occurrences (object this_b) (dynamicMappedObjects rc3) = 1%nat.
Proof.
  intros Hr Hr2 Hs Ho Hd Hd2 Hout.
  eexists _, _, _, _, _, _, _.
  split; [apply (set_dynamic_changed true this s r rc); [done|done|congruence]|].
  split; [apply (set_dynamic_changed true this2 _ r);
          [done | apply lookup_insert_eq | congruence]|].
  split; [apply (set_dynamic_changed false (set__dynamic true this) _ r);
          [done | apply lookup_insert_eq | done]|].
  split; [apply lookup_insert_eq|]. split; [done|].
  assert (occurrences (object this)
            (dynamicMappedObjects
               (retrack false (object this)
                  (retrack true (object this2) (retrack true (object this) rc)))) = 1%nat)
    as Hocc.
  { rewrite Ho, !retrack_list, occurrences_remove_object, !occurrences_push.
    apply occurrences_absent in Hout. rewrite Hout. reflexivity. }
  cbn [object set__dynamic]. split; [|done].
  apply occurrences_present. rewrite Hocc. lia.
Qed.

Lemma dynamic_same_object_twice_witness :
  exists this_a s1 this2_a s2 this_b s3 rc3,
    set_dynamic true sample_map sample_store = Normal (this_a, s1) /\
    set_dynamic true twin_map s1 = Normal (this2_a, s2) /\
    set_dynamic false this_a s2 = Normal (this_b, s3) /\
    s3 !! 1%positive = Some rc3 /\
    _dynamic this_b = false /\
    object this_b ∈ dynamicMappedObjects rc3 /\
    occurrences (object this_b) (dynamicMappedObjects rc3) = 1%nat.
Proof.
  apply (dynamic_same_object_twice sample_map twin_map sample_store 1%positive
           sample_raycaster); try reflexivity.
  intros H. apply list_elem_of_singleton in H. discriminate H.
Defined.

(** X11.  After a sequence of assignments to [dynamic] that completes,
    reading [dynamic] gives the last value assigned (the original flag
    if nothing was assigned), with or without a parent raycaster. *)
Theorem dynamic_sequence_last_wins bs this s this' s' :
  assign_all bs this s = Normal (this', s') ->
  get_dynamic this' = default (_dynamic this) (last bs).
Proof.
  revert this s. induction bs as [|b bs IH]; intros this s E.
  - cbn in E. by inversion E.
  - cbn [assign_all] in E.
    destruct (set_dynamic b this s) as [[this1 s1]|e] eqn:E1; [|done].
    cbn in E. rewrite (IH _ _ E), last_cons.
    pose proof (set_dynamic_receiver b this s this1 s1 E1) as ->.
    by destruct (last bs).
Qed.

Lemma dynamic_sequence_last_wins_witness :
  get_dynamic (set__dynamic false detached_map) = false.
Proof.
  apply (dynamic_sequence_last_wins [true; true; false] detached_map sample_store
           (set__dynamic false detached_map) sample_store).
  reflexivity.
Defined.

(** X12.  On a map without a parent raycaster every sequence of
    assignments to [dynamic] completes; the store is returned as it
    was and the map differs from the original in the flag only, which
    holds the last value assigned. *)
Theorem dynamic_detached_sequence bs this s :
  _raycaster this = None ->
  assign_all bs this s =
  Normal (set__dynamic (default (_dynamic this) (last bs)) this, s).
Proof.
  revert this. induction bs as [|b bs IH]; intros this Hr.
  - cbn. by rewrite set__dynamic_same.
  - cbn [assign_all]. rewrite set_dynamic_detached by done. cbn.
    rewrite IH by done. rewrite last_cons. cbn.
    by destruct (last bs); destruct this.
Qed.

Lemma dynamic_detached_sequence_witness :
  assign_all [true; false; true] detached_map sample_store =
  Normal (set__dynamic true detached_map, sample_store).
Proof.
  apply (dynamic_detached_sequence [true; false; true] detached_map sample_store).
  reflexivity.
Defined.

(** X13.  The counters do not drift.  On a map attached to a raycaster
    whose object is tracked consistently and whose counters agree with
    the dynamic list, any sequence of assignments to [dynamic], however
    long, moves the dynamic counter by the net change of the flag only
    (one up if the map ends dynamic and started static, one down the
    other way round, not at all otherwise), and the static counter by
    the opposite amount. *)
Theorem dynamic_sequence_no_drift this s r rc bs :
  _raycaster this = Some r -> s !! r = Some rc ->
  tracked_once this rc -> counters_consistent rc ->
  exists this' s' rc',
    assign_all bs this s = Normal (this', s') /\ s' !! r = Some rc' /\
    (dynamic (mappedObjects (_stats rc')) - Z.b2z (_dynamic this') =
     dynamic (mappedObjects (_stats rc)) - Z.b2z (_dynamic this))%Z /\
    (static (mappedObjects (_stats rc')) + Z.b2z (_dynamic this') =
     static (mappedObjects (_stats rc)) + Z.b2z (_dynamic this))%Z.
Proof.
  intros Hr Hs Htr [Hdyn Hstat].
  destruct (assign_all_invariant
              (fun this' rc' =>
                 tracked_once this' rc' /\ counters_consistent rc' /\
                 total (mappedObjects (_stats rc')) = total (mappedObjects (_stats rc)) /\
                 (Z.of_nat (length (dynamicMappedObjects rc')) - Z.b2z (_dynamic this') =
                  Z.of_nat (length (dynamicMappedObjects rc)) - Z.b2z (_dynamic this))%Z) r)
    with (bs := bs) (this := this) (s := s) (rc := rc)
    as (this' & s' & rc' & E & Hs' & _ & _ & _ & [Hdyn' Hstat'] & Ht & Hlen); try done.
  - intros this0 rc0 b _ (Htr0 & _ & Ht0 & Hlen0) Hb.
    split; [by apply tracked_once_step|]. split; [apply retrack_consistent|].
    split; [by rewrite retrack_total|].
    rewrite retrack_list. cbn [_dynamic set__dynamic].
    unfold tracked_once in Htr0. destruct b, (_dynamic this0) eqn:Hd0; try done.
    + unfold push. rewrite length_app. cbn in *. lia.
    + assert (object this0 ∈ dynamicMappedObjects rc0) as Hin
        by (apply occurrences_present; lia).
      rewrite length_remove_object by done.
      destruct (dynamicMappedObjects rc0) as [|y l] eqn:El;
        [by apply not_elem_of_nil in Hin|].
      cbn in *. lia.
  - exists this', s', rc'. split; [done|]. split; [done|].
    rewrite Hstat', Hstat, Ht, Hdyn', Hdyn. lia.
Qed.

Lemma dynamic_sequence_no_drift_witness :
  exists this' s' rc',
    assign_all [true; false; true; true] sample_map sample_store = Normal (this', s') /\
    s' !! 1%positive = Some rc' /\
    (dynamic (mappedObjects (_stats rc')) - Z.b2z (_dynamic this') = 1 - 0)%Z /\
    (static (mappedObjects (_stats rc')) + Z.b2z (_dynamic this') = 2 + 0)%Z.
Proof.
  apply (dynamic_sequence_no_drift sample_map sample_store 1%positive sample_raycaster);
    try reflexivity.
  split; reflexivity.
Defined.
End sharing.

(** ** The constructor and errors *)

Section constructor_errors.
Import Map.
Context {Options : Type}.
Variables (config : Options -> method) (updateMap : method).

(** X14.  The constructor always calls [config] first and exactly once,
    and [updateMap] at most once and never when [config] threw.  It
    throws exactly when [config] throws, or when [config] returns with
    the shape supported and [updateMap] then throws; the error is the
    one thrown there. *)
Theorem constructor_error_behaviour (options : Options) raycaster (s : store) :
  head (Map config updateMap options raycaster s).1 = Some Call_config /\
  length (filter (fun c => c = Call_config) (Map config updateMap options raycaster s).1)
    = 1%nat /\
  (updateMap_calls (Map config updateMap options raycaster s).1 <= 1)%nat /\
  (forall e, config options (fields raycaster) s = Throw e ->
     updateMap_calls (Map config updateMap options raycaster s).1 = 0%nat) /\
  (forall e, (Map config updateMap options raycaster s).2 = Throw e <->
     config options (fields raycaster) s = Throw e \/
     exists this' s', config options (fields raycaster) s = Normal (this', s') /\
       truthy (notSupported this') = false /\ updateMap this' s' = Throw e).
Proof.
  destruct (config options (fields raycaster) s) as [[this' s']|e0] eqn:E.
  - destruct (truthy (notSupported this')) eqn:Hn.
    + rewrite (Map_unsupported config updateMap options raycaster s this' s' E Hn).
      split; [done|]. split; [done|]. split; [vm_compute; lia|]. split; [done|].
      intros e. split; [done|].
      intros [H|(t & u & Heq & Hf & _)]; [done|]. inversion Heq; subst. congruence.
    + rewrite (Map_supported config updateMap options raycaster s this' s' E Hn).
      split; [done|]. split; [done|]. split; [vm_compute; lia|]. split; [done|].
      intros e. cbn. split.
      * intros Hu. right. by exists this', s'.
      * intros [H|(t & u & Heq & _ & Hu)]; [done|]. by inversion Heq; subst.
  - rewrite (Map_throwing config updateMap options raycaster s e0 E).
    split; [done|]. split; [done|]. split; [vm_compute; lia|]. split; [done|].
    intros e. cbn. split.
    + intros H. by left.
    + intros [H|(t & u & Heq & _)]; done.
Qed.
End constructor_errors.

(** A [config] that throws stops the constructor before [updateMap]. *)
Example constructor_config_throws :
  Map.Map throwing_config marking_updateMap true None ∅ =
  ([Map.Call_config], Throw TypeError).
Proof. reflexivity. Qed.
